(** * AdminNotifications: the notification panel of the billing system

    A shallow embedding of [src/components/AdminNotifications.js] and the
    properties of its state handling, content resolution, timestamp
    formatting and refresh timer.

    The component is a React function component.  Its four [useState]
    cells form the record [state]; its handlers are written in a small
    state-and-exception monad [M] over a [world] that also holds what the
    handlers reach outside the component: the console, the calls made to
    the two backend collaborators, and the interval timers of the page. *)

From stdpp Require Import base strings list gmap pretty.
From Stdlib Require Import ZArith NArith Lia.

Local Open Scope Z_scope.

(** ** JavaScript values *)

(** What a [throw] carries.  [Rejected] is the reason of a rejected
    collaborator promise; the other two are raised by the runtime and by
    date-fns. *)
Inductive exn : Type :=
  | Rejected (reason : string)
  | TypeError (message : string)
  | RangeError (message : string).

(** The outcome of evaluating an expression or of awaiting a promise. *)
Inductive completion (A : Type) : Type :=
  | Normal (a : A)
  | Throw (e : exn).
Arguments Normal {A} a.
Arguments Throw {A} e.

(** Numbers of documents are epoch milliseconds and counters: integers,
    with the two non-finite kinds a double can also hold. *)
Inductive number : Type :=
  | NaN
  | Infinity (negative : bool)
  | Int (z : Z).

(** The time value of a [Date]: [None] is the Invalid Date. *)
Definition jsdate : Type := option Z.

(** A field of a notification document.  [VUndefined] is also what reading
    a missing field yields.  An object other than a [Date] is described by
    what this component can observe of it: its [toDate] property ([None]
    when absent or falsy, otherwise the outcome of calling it, which throws
    when the property is not a function), the outcome of [new Date(o)] and
    the outcome of converting it to a string. *)
#[warnings="-register-all"] Inductive value : Type :=
  | VUndefined
  | VNull
  | VBool (b : bool)
  | VNum (n : number)
  | VStr (s : string)
  | VDate (d : jsdate)
  | VObj (toDate : option (completion value))
         (asDate : completion jsdate)
         (asString : completion string).

(** ToBoolean. *)
Definition truthy (v : value) : bool :=
  match v with
  | VUndefined | VNull => false
  | VBool b => b
  | VNum NaN => false
  | VNum (Infinity _) => true
  | VNum (Int z) => negb (z =? 0)
  | VStr s => negb (String.eqb s "")
  | VDate _ | VObj _ _ _ => true
  end.

(** The [typeof] operator. *)
Definition typeof (v : value) : string :=
  match v with
  | VUndefined => "undefined"
  | VBool _ => "boolean"
  | VNum _ => "number"
  | VStr _ => "string"
  | VNull | VDate _ | VObj _ _ _ => "object"
  end.

(** [a || b]. *)
Definition js_or (a b : value) : value := if truthy a then a else b.

(** [v === s] for a string literal [s], as a [case] label compares. *)
Definition strict_eq_str (v : value) (s : string) : bool :=
  match v with
  | VStr s' => String.eqb s' s
  | _ => false
  end.

(** The parts of the JavaScript runtime and of date-fns that the component
    calls and whose results depend on the host (locale, time zone, the
    date parser of the engine, the installed date-fns). *)
Class Host : Type := {
  (** time value of [new Date(s)] for a string [s] *)
  Date_parse : string → jsdate;
  (** [String(d)] for a [Date] *)
  Date_toString : jsdate → string;
  (** [format(date, pattern)] of date-fns *)
  format : value → string → completion string
}.

(** TimeClip of a number. *)
Definition time_clip (n : number) : jsdate :=
  match n with
  | Int z => if Z.abs z <=? 8640000000000000 then Some z else None
  | NaN | Infinity _ => None
  end.

(** [new Date(v)] with one argument. *)
Definition new_Date `{Host} (v : value) : completion value :=
  match v with
  | VStr s => Normal (VDate (Date_parse s))
  | VNum n => Normal (VDate (time_clip n))
  | VBool b => Normal (VDate (Some (if b then 1 else 0)))
  | VUndefined => Normal (VDate None)
  | VNull => Normal (VDate (Some 0))
  | VDate d => Normal (VDate d)
  | VObj _ (Normal d) _ => Normal (VDate d)
  | VObj _ (Throw e) _ => Throw e
  end.

(** ToString, as a template literal applies it to a substitution. *)
Definition to_string `{Host} (v : value) : completion string :=
  match v with
  | VUndefined => Normal "undefined"
  | VNull => Normal "null"
  | VBool b => Normal (if b then "true" else "false")
  | VNum NaN => Normal "NaN"
  | VNum (Infinity negative) => Normal (if negative then "-Infinity" else "Infinity")
  | VNum (Int z) => Normal (pretty z)
  | VStr s => Normal s
  | VDate d => Normal (Date_toString d)
  | VObj _ _ s => s
  end.

(** ** Data model *)

(** A notification document.  [id], [type], [read] and [createdAt] are the
    fields every document has: the backend gives [id] as a string and
    [read] as a boolean, while [type] and [createdAt] come in several
    shapes.  [fields] holds the type-specific ones ([userName],
    [userEmail], ...). *)
Record notification : Type := {
  id : string;
  type : value;
  read : bool;
  createdAt : value;
  fields : gmap string value
}.

(** [notification.k] for a type-specific field. *)
Definition get (n : notification) (k : string) : value :=
  default VUndefined (fields n !! k).

(** [{ ...notification, read: true }]. *)
Definition spread_read_true (n : notification) : notification :=
  {| id := id n; type := type n; read := true;
     createdAt := createdAt n; fields := fields n |}.

(** The four [useState] cells (lines 9-12). *)
Record state : Type := {
  notifications : list notification;
  loading : bool;
  error : string;
  unreadCount : Z
}.

(** [useState([])], [useState(false)], [useState('')], [useState(0)]. *)
Definition initial_state : state :=
  {| notifications := []; loading := false; error := ""; unreadCount := 0 |}.

(** The calls the component makes to the backend collaborators. *)
Inductive request : Type :=
  | GetAdminNotifications
  | MarkNotificationAsRead (notificationId : string).

(** A [setInterval] timer: its period and the time of its next firing. *)
Record timer : Type := { period : N; due : N }.

(** The only function this component hands to [setInterval]. *)
Inductive callback : Type := FetchNotifications.

(** Everything a handler can read or change.  [requests] records each
    collaborator call with the component state at the moment of the call;
    [timers] is in creation order. *)
Record world : Type := {
  ui : state;
  console : list (string * exn);
  requests : list (request * state);
  now : N;
  timers : list (nat * (callback * timer));
  next_handle : nat
}.

Definition fresh_world (s : state) : world :=
  {| ui := s; console := []; requests := []; now := 0%N;
     timers := []; next_handle := 0%nat |}.

Definition with_ui (f : state → state) (w : world) : world :=
  {| ui := f (ui w); console := console w; requests := requests w;
     now := now w; timers := timers w; next_handle := next_handle w |}.

(** ** The handler monad *)

Definition M (A : Type) : Type := world → world * completion A.

Definition ret {A} (a : A) : M A := λ w, (w, Normal a).

Definition bind {A B} (m : M A) (k : A → M B) : M B :=
  λ w, match m w with
       | (w', Normal a) => k a w'
       | (w', Throw e) => (w', Throw e)
       end.

(** Lift an expression that may throw. *)
Definition eval {A} (c : completion A) : M A := λ w, (w, c).

(** [try { body } catch (e) { handler }]. *)
Definition try_catch {A} (body : M A) (handler : exn → M A) : M A :=
  λ w, match body w with
       | (w', Throw e) => handler e w'
       | r => r
       end.

(** [try { body } catch (e) { handler } finally { finalizer }]: the
    finalizer runs on every path and its own throw wins. *)
Definition try_catch_finally {A} (body : M A) (handler : exn → M A)
    (finalizer : M unit) : M A :=
  λ w, let '(w1, r) := try_catch body handler w in
       match finalizer w1 with
       | (w2, Normal _) => (w2, r)
       | (w2, Throw e) => (w2, Throw e)
       end.

Declare Scope js_scope.
Delimit Scope js_scope with js.
Notation "'let!' x ':=' c 'in' k" := (bind c (λ x, k))
  (at level 10, x name, c at level 100, k at level 200) : js_scope.
Notation "c ';;;' k" := (bind c (λ _, k))
  (at level 100, k at level 200, right associativity) : js_scope.

(** The state a handler leaves behind, and what its promise settles to. *)
Definition state_after {A} (m : M A) (w : world) : state := ui (fst (m w)).
Definition outcome {A} (m : M A) (w : world) : completion A := snd (m w).

(** [console.error(label, e)]. *)
Definition console_error (label : string) (e : exn) : M unit :=
  λ w, ({| ui := ui w; console := console w ++ [(label, e)];
           requests := requests w; now := now w; timers := timers w;
           next_handle := next_handle w |}, Normal tt).

(** The argument of a state setter: a new value, or a function of the
    previous one. *)
Inductive update (A : Type) : Type :=
  | Value (a : A)
  | Updater (f : A → A).
Arguments Value {A} a.
Arguments Updater {A} f.

Definition apply_update {A} (u : update A) (prev : A) : A :=
  match u with
  | Value a => a
  | Updater f => f prev
  end.

Definition setNotifications (u : update (list notification)) : M unit :=
  λ w, (with_ui (λ s, {| notifications := apply_update u (notifications s);
                         loading := loading s; error := error s;
                         unreadCount := unreadCount s |}) w, Normal tt).

Definition setLoading (u : update bool) : M unit :=
  λ w, (with_ui (λ s, {| notifications := notifications s;
                         loading := apply_update u (loading s);
                         error := error s;
                         unreadCount := unreadCount s |}) w, Normal tt).

Definition setError (u : update string) : M unit :=
  λ w, (with_ui (λ s, {| notifications := notifications s;
                         loading := loading s;
                         error := apply_update u (error s);
                         unreadCount := unreadCount s |}) w, Normal tt).

Definition setUnreadCount (u : update Z) : M unit :=
  λ w, (with_ui (λ s, {| notifications := notifications s;
                         loading := loading s; error := error s;
                         unreadCount := apply_update u (unreadCount s) |}) w,
        Normal tt).

(** ** Collaborators *)

Definition log_request (q : request) (w : world) : world :=
  {| ui := ui w; console := console w;
     requests := requests w ++ [(q, ui w)];
     now := now w; timers := timers w; next_handle := next_handle w |}.

(** A collaborator call that is answered from the world it is made in,
    with nothing else happening to the component while it is awaited. *)
Definition answers {A} (q : request) (reply : world → completion A) : M A :=
  λ w, (log_request q w, reply w).

(** A collaborator call whose promise settles to [r]. *)
Definition settles {A} (q : request) (r : completion A) : M A :=
  answers q (λ _, r).

Definition resolves {A} (q : request) (a : A) : M A := settles q (Normal a).
Definition rejects {A} (q : request) (e : exn) : M A := settles q (Throw e).

(** Calling an async function without awaiting it: the caller goes on
    whatever the promise settles to. *)
Definition call_async {A} (m : M A) : M unit := λ w, (fst (m w), Normal tt).

(** ** Interval timers *)

(** [setInterval(cb, delay)]: the first firing is one period from now; a
    period is at least one millisecond. *)
Definition setInterval (cb : callback) (delay : N) : M nat :=
  λ w, let h := next_handle w in
       let t := {| period := N.max 1 delay; due := (now w + N.max 1 delay)%N |} in
       ({| ui := ui w; console := console w; requests := requests w;
           now := now w; timers := timers w ++ [(h, (cb, t))];
           next_handle := S h |}, Normal h).

(** [clearInterval(h)]. *)
Definition clearInterval (h : nat) : M unit :=
  λ w, ({| ui := ui w; console := console w; requests := requests w;
           now := now w;
           timers := List.filter (λ e, negb (Nat.eqb (fst e) h)) (timers w);
           next_handle := next_handle w |}, Normal tt).

Definition reschedule (t : N) (e : nat * (callback * timer))
    : nat * (callback * timer) :=
  let '(h, (cb, tm)) := e in
  if (due tm =? t)%N
  then (h, (cb, {| period := period tm; due := (due tm + period tm)%N |}))
  else e.

Definition due_callbacks (t : N) (ts : list (nat * (callback * timer)))
    : list callback :=
  map (λ e, fst (snd e)) (List.filter (λ e, (due (snd (snd e)) =? t)%N) ts).

(** The display payload of a notification (lines 71-83). *)
Record content : Type := {
  title : string;
  message : string;
  link : string;
  linkText : string
}.

(** ** The component *)

Section AdminNotifications.
Local Open Scope js_scope.

(** [const { getAdminNotifications, markNotificationAsRead } = useAdmin()] *)
Variable getAdminNotifications : M (list notification).
Variable markNotificationAsRead : string → M unit.

(** Lines 15-30. *)
Definition fetchNotifications : M unit :=
  try_catch_finally
    (setLoading (Value true) ;;;
     let! fetchedNotifications := getAdminNotifications in
     setNotifications (Value fetchedNotifications) ;;;
     let unread :=
       length (List.filter (λ notification, negb (read notification))
                           fetchedNotifications) in
     setUnreadCount (Value (Z.of_nat unread)))
    (λ error,
       console_error "Error fetching notifications:" error ;;;
       setError (Value "Failed to load notifications"))
    (setLoading (Value false)).

(** Lines 33-49. *)
Definition handleMarkAsRead (notificationId : string) : M unit :=
  try_catch
    (markNotificationAsRead notificationId ;;;
     setNotifications (Updater (λ prevNotifications,
       map (λ notification,
              if String.eqb (id notification) notificationId
              then spread_read_true notification
              else notification)
           prevNotifications)) ;;;
     setUnreadCount (Updater (λ prev, Z.max 0 (prev - 1))))
    (λ error, console_error "Error marking notification as read:" error).

(** Lines 52-65; the value of [date] (lines 56-58) first. *)
Definition toDate_of (v : value) : option (completion value) :=
  match v with
  | VObj toDate _ _ => toDate
  | _ => None
  end.

Definition date_of `{Host} (timestamp : value) : completion value :=
  if String.eqb (typeof timestamp) "string"
  then new_Date timestamp
  else match toDate_of timestamp with
       | Some called => called
       | None => new_Date timestamp
       end.

Definition formatNotificationTime `{Host} (timestamp : value) : M string :=
  if negb (truthy timestamp) then ret ""
  else
    try_catch
      (let! date := eval (date_of timestamp) in
       eval (format date "MMM d, yyyy h:mm a"))
      (λ error,
         console_error "Error formatting date:" error ;;;
         ret "Invalid date").

(** Lines 68-85. *)
Definition getNotificationContent `{Host} (n : notification)
    : completion content :=
  if strict_eq_str (type n) "new_google_user"
  then
    match to_string (js_or (get n "userName") (get n "userEmail")) with
    | Normal who =>
        Normal {| title := "New Google Sign-up";
                  message := who ++
                    " has signed up with Google and is pending approval.";
                  link := "/admin/pending-users";
                  linkText := "View Pending Users" |}
    | Throw e => Throw e
    end
  else
    Normal {| title := "Notification";
              message := "You have a new notification.";
              link := "";
              linkText := "" |}.

(** Lines 88-95: the mount effect and the cleanup it returns.  The
    effect hands the handle of its interval to the cleanup. *)
Definition useEffect_mount : M nat :=
  call_async fetchNotifications ;;;
  let! interval := setInterval FetchNotifications (5 * 60 * 1000) in
  ret interval.

Definition useEffect_cleanup (interval : nat) : M unit :=
  clearInterval interval.

(** *** The timer queue of the page *)

Definition run_callback (cb : callback) : M unit :=
  match cb with
  | FetchNotifications => call_async fetchNotifications
  end.

(** One millisecond passes: the timers due at the new instant fire, in
    creation order, and are scheduled one period later. *)
Definition tick (w : world) : world :=
  let t := (now w + 1)%N in
  let w1 := {| ui := ui w; console := console w; requests := requests w;
               now := t; timers := map (reschedule t) (timers w);
               next_handle := next_handle w |} in
  foldl (λ w' cb, fst (run_callback cb w')) w1 (due_callbacks t (timers w)).

Definition advance (d : N) (w : world) : world := N.iter d tick w.

End AdminNotifications.

(** ** What the dropdown shows (lines 101-132) *)

(** [unreadCount > 0 && <Badge>] *)
Definition shows_badge (s : state) : bool := 0 <? unreadCount s.
(** [loading && <Spinner>] *)
Definition shows_spinner (s : state) : bool := loading s.
(** [error && <ItemText>]: a non-empty string is truthy. *)
Definition shows_error (s : state) : bool := negb (String.eqb (error s) "").
(** [!loading && !error && notifications.length === 0] *)
Definition shows_empty (s : state) : bool :=
  negb (loading s) && negb (shows_error s)
  && Nat.eqb (length (notifications s)) 0.

(** ** Collaborator outcomes and sample data used in the statements *)

(** [getAdminNotifications] resolving with [R], or rejecting with [e]. *)
Definition fetch_ok (R : list notification) : M (list notification) :=
  resolves GetAdminNotifications R.
Definition fetch_fails (e : exn) : M (list notification) :=
  rejects GetAdminNotifications e.

(** [markNotificationAsRead] resolving, or rejecting with [e]. *)
Definition mark_ok (notificationId : string) : M unit :=
  resolves (MarkNotificationAsRead notificationId) tt.
Definition mark_fails (e : exn) (notificationId : string) : M unit :=
  rejects (MarkNotificationAsRead notificationId) e.

(** The number of entries with [read == false], counted entry by entry. *)
Fixpoint count_unread (R : list notification) : nat :=
  match R with
  | [] => 0%nat
  | n :: R' => ((if read n then 0 else 1) + count_unread R')%nat
  end.

(** The number of [getAdminNotifications] calls made so far. *)
Definition fetch_calls (w : world) : nat :=
  length (List.filter
            (λ c, match fst c with GetAdminNotifications => true | _ => false end)
            (requests w)).

Definition sample (i : string) (r : bool) : notification :=
  {| id := i; type := VStr "new_google_user"; read := r;
     createdAt := VStr "2024-05-01T10:00:00Z";
     fields := {[ "userName" := VStr "Alice" ]} |}.

(** A panel holding one read and one unread notification. *)
Definition one_read_one_unread : state :=
  {| notifications := [sample "1" true; sample "2" false];
     loading := false; error := ""; unreadCount := 1 |}.

(** A panel holding two unread notifications. *)
Definition two_unread : state :=
  {| notifications := [sample "1" false; sample "2" false];
     loading := false; error := ""; unreadCount := 2 |}.

(** The panel after the very first fetch has been rejected. *)
Definition after_failed_fetch : world :=
  fst (fetchNotifications (fetch_fails (Rejected "offline"))
         (fresh_world initial_state)).

(** A host for the examples: its parser reads no string as a date, and its
    [format] prints the time value and rejects anything that is not a valid
    [Date], as date-fns 2 and later do. *)
Definition example_host : Host :=
  {| Date_parse := λ _, None;
     Date_toString := λ d, match d with
                           | Some t => pretty t
                           | None => "Invalid Date"
                           end;
     format := λ v _, match v with
                      | VDate (Some t) => Normal (pretty t)
                      | _ => Throw (RangeError "Invalid time value")
                      end |}.

(** [getAdminNotifications] answered by a backend whose reply may depend on
    when and in which state it is asked. *)
Definition backend (reply : world → completion (list notification))
    : M (list notification) :=
  answers GetAdminNotifications reply.

(** The page has the one timer [h], of period [p], next due at [d]. *)
Definition armed (h : nat) (p d : N) (w : world) : Prop :=
  timers w = [(h, (FetchNotifications, {| period := p; due := d |}))].

(** A notification that shares type, [userName] and [userEmail] with
    [sample "1" true] and differs from it everywhere else. *)
Definition sample_variant : notification :=
  {| id := "77"; type := VStr "new_google_user"; read := false;
     createdAt := VNum (Int 1714557600000);
     fields := {[ "userName" := VStr "Alice"; "plan" := VStr "trial" ]} |}.

(** A notification without a [type] field. *)
Definition untyped : notification :=
  {| id := "9"; type := VUndefined; read := false;
     createdAt := VNull; fields := ∅ |}.

(** ** The rendered dropdown (lines 97-181) *)

(** One entry of the menu (lines 134-164): the [key] of its wrapper, the id
    its click handler passes to [handleMarkAsRead], the highlight class and
    the "New" pill of an unread entry, the resolved title and message, the
    formatted time, and the link button when the content has a link. *)
Record item : Type := {
  key : string;
  marks : string;
  highlighted : bool;
  item_title : string;
  new_pill : bool;
  item_message : string;
  time_text : string;
  action : option (string * string)
}.

(** The dropdown: the count pill on the bell, the spinner, the error line,
    the "No notifications" line, the entries, and the Refresh button. *)
Record view : Type := {
  badge : option Z;
  spinner : bool;
  error_text : option string;
  empty_text : bool;
  items : list item;
  refresh_button : bool
}.

(** [list.map(f)] for a callback with effects: left to right, stopping at
    the first throw. *)
Fixpoint map_M {A B} (f : A → M B) (l : list A) : M (list B) :=
  match l with
  | [] => ret []
  | a :: l' => bind (f a) (λ b, bind (map_M f l') (λ bs, ret (b :: bs)))
  end.

(** The callback of [notifications.map] (lines 134-164). *)
Definition render_item `{Host} (n : notification) : M item :=
  bind (eval (getNotificationContent n)) (λ content,
  bind (formatNotificationTime (createdAt n)) (λ time,
  ret {| key := id n;
         marks := id n;
         highlighted := negb (read n);
         item_title := title content;
         new_pill := negb (read n);
         item_message := message content;
         time_text := time;
         action := if negb (String.eqb (link content) "")
                   then Some (link content, linkText content)
                   else None |})).

(** The returned element (lines 97-181) for the state of this render. *)
Definition render `{Host} (s : state) : M view :=
  bind (map_M render_item (notifications s)) (λ entries,
  ret {| badge := if shows_badge s then Some (unreadCount s) else None;
         spinner := shows_spinner s;
         error_text := if shows_error s then Some (error s) else None;
         empty_text := shows_empty s;
         items := entries;
         refresh_button := Nat.ltb 0 (length (notifications s)) |}).

(** ** Sequences of events *)

(** What drives the component once mounted: a fetch (from the mount, the
    timer or the Refresh button) with what the backend answers, and a click
    on an entry with what the backend answers to the acknowledgement.  Each
    is taken to settle before the next one starts. *)
Inductive event : Type :=
  | Refresh (r : completion (list notification))
  | Acknowledge (notificationId : string) (r : completion unit).

Definition step (e : event) (w : world) : world :=
  match e with
  | Refresh r =>
      fst (fetchNotifications (settles GetAdminNotifications r) w)
  | Acknowledge nid r =>
      fst (handleMarkAsRead
             (λ i, settles (MarkNotificationAsRead i) r) nid w)
  end.

Definition run (es : list event) (w : world) : world :=
  foldl (λ w' e, step e w') w es.

(** Whether some fetch of the sequence was rejected. *)
Definition fetch_rejected (es : list event) : bool :=
  existsb (λ e, match e with Refresh (Throw _) => true | _ => false end) es.

(** A collaborator call during whose await other handlers run ([during]),
    and which settles to [r] afterwards. *)
Definition interleaved {A} (q : request) (during : M unit)
    (r : completion A) : M A :=
  λ w, (fst (during (log_request q w)), r).

(** The list an accepted acknowledgement of [nid] leaves (lines 37-43). *)
Definition marked (nid : string) (l : list notification) : list notification :=
  map (λ n, if String.eqb (id n) nid then spread_read_true n else n) l.
Arguments marked : simpl never.

(** The count pill is not negative and not above the number of unread
    entries, no request is pending, and no id occurs twice. *)
Definition consistent (s : state) : Prop :=
  0 ≤ unreadCount s ≤ Z.of_nat (count_unread (notifications s)) ∧
  loading s = false ∧
  NoDup (map id (notifications s)).

(** The backend answers a fetch with a list in which no id occurs twice. *)
Definition well_keyed (e : event) : Prop :=
  match e with
  | Refresh (Normal R) => NoDup (map id R)
  | _ => True
  end.

(** [w'] differs from [w] at most by lines added to the console. *)
Definition only_logs (w w' : world) : Prop :=
  ui w' = ui w ∧ requests w' = requests w ∧ now w' = now w ∧
  timers w' = timers w ∧ next_handle w' = next_handle w ∧
  ∃ logged, console w' = console w ++ logged.

(** The handles of the timers of the page, in creation order. *)
Definition handles (w : world) : list nat := map fst (timers w).

(** A page on which another component already runs a timer. *)
Definition busy_page : world :=
  {| ui := initial_state; console := []; requests := []; now := 1000%N;
     timers := [(0%nat, (FetchNotifications,
                         {| period := 60000; due := 60500 |}))];
     next_handle := 1%nat |}.

(** A sign-up notification with an e-mail address and no name. *)
Definition nameless : notification :=
  {| id := "5"; type := VStr "new_google_user"; read := false;
     createdAt := VNum (Int 1714557600000);
     fields := {[ "userEmail" := VStr "a@x.com" ]} |}.

(** ** The store: [fetchNotifications] and [handleMarkAsRead] *)

Section Store.

Implicit Types (w : world) (s : state) (R : list notification).

(** What a fetch does around a collaborator call that is answered while
    nothing else touches the component. *)
Lemma fetchNotifications_answers reply w :
  fetchNotifications (answers GetAdminNotifications reply) w =
    let pending := {| notifications := notifications (ui w);
                      loading := true;
                      error := error (ui w);
                      unreadCount := unreadCount (ui w) |} in
    let sent := requests w ++ [(GetAdminNotifications, pending)] in
    match reply (with_ui (λ _, pending) w) with
    | Normal R =>
        ({| ui := {| notifications := R; loading := false;
                     error := error (ui w);
                     unreadCount :=
                       Z.of_nat (length (List.filter (λ n, negb (read n)) R)) |};
            console := console w; requests := sent; now := now w;
            timers := timers w; next_handle := next_handle w |}, Normal tt)
    | Throw e =>
        ({| ui := {| notifications := notifications (ui w); loading := false;
                     error := "Failed to load notifications";
                     unreadCount := unreadCount (ui w) |};
            console := console w ++ [("Error fetching notifications:", e)];
            requests := sent; now := now w;
            timers := timers w; next_handle := next_handle w |}, Normal tt)
    end.
Proof.
  unfold fetchNotifications, try_catch_finally, try_catch, bind, answers,
    setLoading, setNotifications, setUnreadCount, setError, console_error,
    log_request, with_ui; simpl.
  destruct (reply _); reflexivity.
Qed.

Lemma filter_unread_length R :
  length (List.filter (λ n, negb (read n)) R) = count_unread R.
Proof.
  induction R as [|n R IH]; simpl; [reflexivity|].
  destruct (read n); simpl; rewrite IH; reflexivity.
Qed.

(** What an acknowledgement does when the collaborator resolves. *)
Lemma handleMarkAsRead_resolved nid w :
  handleMarkAsRead mark_ok nid w =
    ({| ui := {| notifications :=
                   map (λ n, if String.eqb (id n) nid
                             then spread_read_true n else n)
                       (notifications (ui w));
                 loading := loading (ui w);
                 error := error (ui w);
                 unreadCount := Z.max 0 (unreadCount (ui w) - 1) |};
        console := console w;
        requests := requests w ++ [(MarkNotificationAsRead nid, ui w)];
        now := now w; timers := timers w; next_handle := next_handle w |},
     Normal tt).
Proof. reflexivity. Qed.

Lemma spread_read_true_read n : read n = true → spread_read_true n = n.
Proof. destruct n as [i t r c f]; simpl; intros ->; reflexivity. Qed.

(** Acknowledging an id that no unread entry carries rebuilds the same
    list. *)
Lemma mark_read_no_unread_match nid (l : list notification) :
  (∀ n, n ∈ l → id n = nid → read n = true) →
  map (λ n, if String.eqb (id n) nid then spread_read_true n else n) l = l.
Proof.
  induction l as [|m l IH]; intros Hl; simpl; [reflexivity|].
  rewrite IH by (intros n Hn; apply Hl; right; exact Hn).
  destruct (String.eqb_spec (id m) nid) as [E|_]; [|reflexivity].
  rewrite spread_read_true_read; [reflexivity|].
  apply Hl; [left|exact E].
Qed.

(** Acknowledging the id of exactly one entry rewrites that position
    only. *)
Lemma mark_read_single nid (l : list notification) i n :
  l !! i = Some n → id n = nid →
  (∀ j m, l !! j = Some m → id m = nid → j = i) →
  map (λ n, if String.eqb (id n) nid then spread_read_true n else n) l
  = <[i := spread_read_true n]> l.
Proof.
  intros Hi Hn Huniq. apply list_eq; intros j.
  change (map ?f l) with (f <$> l). rewrite list_lookup_fmap.
  destruct (decide (j = i)) as [->|Hne].
  - rewrite list_lookup_insert_eq by (eapply lookup_lt_Some; exact Hi).
    rewrite Hi; simpl. rewrite Hn, String.eqb_refl. reflexivity.
  - rewrite list_lookup_insert_ne by congruence.
    destruct (l !! j) as [m|] eqn:Hj; simpl; [|reflexivity].
    destruct (String.eqb_spec (id m) nid) as [E|_]; [|reflexivity].
    exfalso. apply Hne. eapply Huniq; eassumption.
Qed.

(** An acknowledgement of an id that no unread entry carries keeps the
    list and both flags, and still lowers the unread count. *)
Lemma acknowledge_no_unread_match nid w :
  (∀ n, n ∈ notifications (ui w) → id n = nid → read n = true) →
  state_after (handleMarkAsRead mark_ok nid) w
  = {| notifications := notifications (ui w);
       loading := loading (ui w);
       error := error (ui w);
       unreadCount := Z.max 0 (unreadCount (ui w) - 1) |}.
Proof.
  intros Hread. unfold state_after.
  rewrite handleMarkAsRead_resolved; simpl.
  rewrite (mark_read_no_unread_match nid _ Hread). reflexivity.
Qed.

End Store.

(** ** Properties of the store *)

(** C1 (defect of the code).  An acknowledgement of an entry that is already
    read should change nothing.  The list and the flags are indeed
    unchanged, but [handleMarkAsRead] lowers the unread count whenever it is
    positive: with entry 1 read, entry 2 unread and a count of 1, a
    successful acknowledgement of 1 leaves the count at 0 although entry 2
    is still unread; and acknowledging the same entry twice leaves a state
    different from acknowledging it once. *)
Theorem acknowledge_read_entry_lowers_count :
  (∀ n, n ∈ notifications one_read_one_unread → id n = "1" → read n = true) ∧
  state_after (handleMarkAsRead mark_ok "1") (fresh_world one_read_one_unread)
  = {| notifications := [sample "1" true; sample "2" false];
       loading := false; error := ""; unreadCount := 0 |} ∧
  state_after (handleMarkAsRead mark_ok "1") (fresh_world one_read_one_unread)
  ≠ one_read_one_unread ∧
  state_after (handleMarkAsRead mark_ok "1")
    (fst (handleMarkAsRead mark_ok "1" (fresh_world two_unread)))
  ≠ state_after (handleMarkAsRead mark_ok "1") (fresh_world two_unread).
Proof.
  split; [|split; [reflexivity|split; discriminate]].
  intros n Hn Hid. unfold one_read_one_unread in Hn; simpl in Hn.
  apply elem_of_cons in Hn as [->|Hn]; [reflexivity|].
  apply elem_of_cons in Hn as [->|Hn]; [discriminate Hid|].
  apply elem_of_nil in Hn; contradiction.
Qed.

(** C2, as the specification states it, fails: after the first fetch was
    rejected, a fetch that succeeds does not clear the error.  The state in
    which its request is pending has the loading flag set and still carries
    the message, and so does the state after the request resolved: the
    panel is not left without an error message. *)
Lemma fetch_success_keeps_stale_error :
  let w' := fst (fetchNotifications (fetch_ok []) after_failed_fetch) in
  (∃ pending, last (requests w') = Some (GetAdminNotifications, pending) ∧
              loading pending = true ∧ error pending ≠ "") ∧
  ¬ (loading (ui w') = false ∧ error (ui w') = "") ∧
  shows_error (ui w') = true.
Proof.
  split; [|split; [|reflexivity]].
  - eexists; split; [reflexivity|]. split; [reflexivity|discriminate].
  - intros [_ Herr]. discriminate Herr.
Qed.

(** C2 (amended).  For every prior state, [fetchNotifications] sets the
    loading flag before it calls the collaborator and leaves the error
    message as it was; when the collaborator resolves with [R], the list is
    replaced by [R], the unread count recomputed and the loading flag
    cleared, and the error message is still the one from before the call:
    the panel shows an error afterwards exactly when it showed one
    before. *)
Theorem fetch_sets_loading_keeps_error (w : world) (R : list notification) :
  let w' := fst (fetchNotifications (fetch_ok R) w) in
  requests w' =
    requests w ++
      [(GetAdminNotifications,
        {| notifications := notifications (ui w); loading := true;
           error := error (ui w); unreadCount := unreadCount (ui w) |})] ∧
  ui w' = {| notifications := R; loading := false; error := error (ui w);
             unreadCount := Z.of_nat (count_unread R) |} ∧
  shows_spinner (ui w') = false ∧
  shows_error (ui w') = shows_error (ui w) ∧
  outcome (fetchNotifications (fetch_ok R)) w = Normal tt.
Proof.
  unfold outcome, fetch_ok, resolves, settles.
  rewrite fetchNotifications_answers; simpl.
  rewrite filter_unread_length. repeat split.
Qed.

(** C3.  Immediately after a fetch whose collaborator resolved with [R], the
    stored list is [R] itself and the unread count is the number of entries
    of [R] that are not read. *)
Theorem fetch_replaces_list_and_counts (w : world) (R : list notification) :
  notifications (state_after (fetchNotifications (fetch_ok R)) w) = R ∧
  unreadCount (state_after (fetchNotifications (fetch_ok R)) w)
  = Z.of_nat (count_unread R).
Proof.
  unfold state_after, fetch_ok, resolves, settles.
  rewrite fetchNotifications_answers; simpl.
  rewrite filter_unread_length. split; reflexivity.
Qed.

(** C4.  When the collaborator rejects, the fetch keeps the previous list
    and unread count, sets the error message, clears the loading flag, logs
    the reason, and its own promise resolves: the rejection does not
    escape. *)
Theorem fetch_failure_keeps_list (w : world) (e : exn) :
  state_after (fetchNotifications (fetch_fails e)) w
  = {| notifications := notifications (ui w); loading := false;
       error := "Failed to load notifications";
       unreadCount := unreadCount (ui w) |} ∧
  shows_error (state_after (fetchNotifications (fetch_fails e)) w) = true ∧
  shows_spinner (state_after (fetchNotifications (fetch_fails e)) w) = false ∧
  console (fst (fetchNotifications (fetch_fails e) w))
  = console w ++ [("Error fetching notifications:", e)] ∧
  outcome (fetchNotifications (fetch_fails e)) w = Normal tt.
Proof.
  unfold state_after, outcome, fetch_fails, rejects, settles.
  rewrite fetchNotifications_answers; simpl. repeat split.
Qed.

(** C5.  When the list holds an unread entry [n] at position [i], no other
    entry carries its id, and the collaborator resolves, the acknowledgement
    replaces position [i] by [n] with [read] set to [true] and every other
    field kept, leaves all other positions, the length and the two flags
    unchanged, and lowers the unread count by one, floored at zero. *)
Theorem acknowledge_marks_entry (w : world) (i : nat) (n : notification) :
  notifications (ui w) !! i = Some n →
  read n = false →
  (∀ j m, notifications (ui w) !! j = Some m → id m = id n → j = i) →
  let s' := state_after (handleMarkAsRead mark_ok (id n)) w in
  notifications s' = <[i := spread_read_true n]> (notifications (ui w)) ∧
  (∃ n', notifications s' !! i = Some n' ∧ read n' = true ∧ id n' = id n ∧
         type n' = type n ∧ createdAt n' = createdAt n ∧
         fields n' = fields n) ∧
  (∀ j, j ≠ i → notifications s' !! j = notifications (ui w) !! j) ∧
  length (notifications s') = length (notifications (ui w)) ∧
  unreadCount s' = Z.max 0 (unreadCount (ui w) - 1) ∧
  loading s' = loading (ui w) ∧
  error s' = error (ui w).
Proof.
  intros Hi Hunread Huniq s'. subst s'.
  unfold state_after. rewrite handleMarkAsRead_resolved; simpl.
  rewrite (mark_read_single (id n) _ i n Hi eq_refl Huniq).
  split; [reflexivity|]. split.
  - exists (spread_read_true n).
    rewrite list_lookup_insert_eq by (eapply lookup_lt_Some; exact Hi).
    repeat split.
  - split; [|split; [apply length_insert|repeat split]].
    intros j Hj. apply list_lookup_insert_ne. congruence.
Qed.

Lemma acknowledge_marks_entry_witness :
  let s' := state_after (handleMarkAsRead mark_ok "1") (fresh_world two_unread) in
  notifications s' = [sample "1" true; sample "2" false] ∧ unreadCount s' = 1.
Proof.
  destruct (acknowledge_marks_entry (fresh_world two_unread) 0
              (sample "1" false)) as (Hl & _ & _ & _ & Hc & _).
  - reflexivity.
  - reflexivity.
  - intros [|[|j]] m; simpl; intros Hm Hid.
    + reflexivity.
    + injection Hm as <-. discriminate Hid.
    + discriminate Hm.
  - split; [exact Hl|exact Hc].
Defined.

(** C6.  When the collaborator rejects, the acknowledgement leaves the whole
    component state as it was (list, unread count, loading flag and error
    message), logs the reason on the console, and its own promise resolves:
    the rejection does not escape. *)
Theorem acknowledge_failure_keeps_state (w : world) (nid : string) (e : exn) :
  state_after (handleMarkAsRead (mark_fails e) nid) w = ui w ∧
  console (fst (handleMarkAsRead (mark_fails e) nid w))
  = console w ++ [("Error marking notification as read:", e)] ∧
  outcome (handleMarkAsRead (mark_fails e) nid) w = Normal tt.
Proof. repeat split. Qed.

(** ** Properties of the content resolver *)

Section Resolver.
Context `{Host}.

Lemma strict_eq_str_false (v : value) (tag : string) :
  v ≠ VStr tag → strict_eq_str v tag = false.
Proof.
  destruct v as [| | | |s| |]; simpl; try reflexivity.
  intros Hne. destruct (String.eqb_spec s tag) as [->|_]; [|reflexivity].
  contradiction Hne; reflexivity.
Qed.
End Resolver.

(** C7.  For a notification whose type is not the recognized tag (a missing
    type reads as [VUndefined], a null one as [VNull]),
    [getNotificationContent] returns normally, with the generic title and
    message and with empty [link] and [linkText]. *)
Theorem unknown_type_resolves_to_fallback `{Host} (n : notification) :
  type n ≠ VStr "new_google_user" →
  getNotificationContent n
  = Normal {| title := "Notification";
              message := "You have a new notification.";
              link := ""; linkText := "" |}.
Proof.
  intros Hne. unfold getNotificationContent.
  rewrite (strict_eq_str_false _ _ Hne). reflexivity.
Qed.

Lemma unknown_type_resolves_to_fallback_witness :
  @getNotificationContent example_host untyped
  = Normal {| title := "Notification";
              message := "You have a new notification.";
              link := ""; linkText := "" |}.
Proof.
  apply (@unknown_type_resolves_to_fallback example_host untyped).
  simpl. discriminate.
Defined.

(** C10.  Two notifications that agree on [type], [userName] and
    [userEmail] resolve to the same outcome, whatever their other fields
    are. *)
Theorem content_depends_on_three_fields `{Host} (n1 n2 : notification) :
  type n1 = type n2 →
  get n1 "userName" = get n2 "userName" →
  get n1 "userEmail" = get n2 "userEmail" →
  getNotificationContent n1 = getNotificationContent n2.
Proof.
  intros Ht Hn He. unfold getNotificationContent.
  rewrite Ht, Hn, He. reflexivity.
Qed.

Lemma content_depends_on_three_fields_witness :
  @getNotificationContent example_host (sample "1" true)
  = @getNotificationContent example_host sample_variant.
Proof.
  apply (@content_depends_on_three_fields example_host
           (sample "1" true) sample_variant);
    vm_compute; reflexivity.
Defined.

(** ** Properties of the timestamp formatter *)

Section Formatter.
Context `{Host}.

(** The three ways a call with a truthy timestamp can end. *)
Lemma formatNotificationTime_truthy (timestamp : value) (w : world) :
  truthy timestamp = true →
  formatNotificationTime timestamp w =
    match date_of timestamp with
    | Normal date =>
        match format date "MMM d, yyyy h:mm a" with
        | Normal formatted => (w, Normal formatted)
        | Throw e => (fst (console_error "Error formatting date:" e w),
                      Normal "Invalid date")
        end
    | Throw e => (fst (console_error "Error formatting date:" e w),
                  Normal "Invalid date")
    end.
Proof.
  intros Ht. unfold formatNotificationTime, try_catch, bind, eval, ret.
  rewrite Ht; simpl.
  destruct (date_of timestamp) as [date|e]; [|reflexivity].
  destruct (format date _); reflexivity.
Qed.

Lemma formatNotificationTime_falsy (timestamp : value) (w : world) :
  truthy timestamp = false →
  formatNotificationTime timestamp w = (w, Normal "").
Proof.
  intros Ht. unfold formatNotificationTime. rewrite Ht. reflexivity.
Qed.

End Formatter.

(** C8.  [formatNotificationTime] is total: for every timestamp it returns
    a string and leaves the component state alone.  A missing (falsy)
    timestamp gives the empty string.  When building the date throws
    (a [toDate] that is not callable or fails, an object that [new Date]
    cannot convert), the result is ["Invalid date"] and the failure is
    logged; and when the date built is the Invalid Date (a malformed
    string, an object of no known shape), the result is ["Invalid date"] as
    well, provided [format] rejects an invalid date, which date-fns does
    since version 2.  Only a date that [format] accepts is shown
    formatted. *)
Theorem formatNotificationTime_total `{Host} (timestamp : value) (w : world) :
  ∃ shown,
    outcome (formatNotificationTime timestamp) w = Normal shown ∧
    ui (fst (formatNotificationTime timestamp w)) = ui w ∧
    (truthy timestamp = false → shown = "") ∧
    (truthy timestamp = true →
     ∀ e, date_of timestamp = Throw e →
          shown = "Invalid date" ∧
          console (fst (formatNotificationTime timestamp w))
          = console w ++ [("Error formatting date:", e)]) ∧
    ((∀ pattern, ∃ e, format (VDate None) pattern = Throw e) →
     truthy timestamp = true →
     date_of timestamp = Normal (VDate None) →
     shown = "Invalid date") ∧
    (shown = "" ∨ shown = "Invalid date" ∨
     ∃ date, date_of timestamp = Normal date ∧
             format date "MMM d, yyyy h:mm a" = Normal shown).
Proof.
  unfold outcome.
  destruct (truthy timestamp) eqn:Ht.
  - rewrite (formatNotificationTime_truthy _ _ Ht).
    destruct (date_of timestamp) as [date|e] eqn:Hd.
    + destruct (format date "MMM d, yyyy h:mm a") as [formatted|e] eqn:Hf.
      * exists formatted; simpl.
        split; [reflexivity|]. split; [reflexivity|].
        split; [discriminate|]. split; [intros _ e' He'; discriminate He'|].
        split.
        -- intros Hinv _ [= ->].
           destruct (Hinv "MMM d, yyyy h:mm a") as [e He].
           rewrite He in Hf. discriminate Hf.
        -- right; right. exists date. split; [reflexivity|exact Hf].
      * exists "Invalid date"; simpl.
        split; [reflexivity|]. split; [reflexivity|].
        split; [discriminate|]. split; [intros _ e' He'; discriminate He'|].
        split; [reflexivity|right; left; reflexivity].
    + exists "Invalid date"; simpl.
      split; [reflexivity|]. split; [reflexivity|].
      split; [discriminate|]. split.
      * intros _ e' [= <-]. split; reflexivity.
      * split; [reflexivity|right; left; reflexivity].
  - rewrite (formatNotificationTime_falsy _ _ Ht).
    exists ""; simpl.
    split; [reflexivity|]. split; [reflexivity|].
    split; [reflexivity|]. split; [discriminate|].
    split; [discriminate|left; reflexivity].
Qed.

Lemma formatNotificationTime_total_witness :
  outcome (@formatNotificationTime example_host (VStr "not a date"))
          (fresh_world initial_state)
  = Normal "Invalid date".
Proof.
  destruct (@formatNotificationTime_total example_host (VStr "not a date")
              (fresh_world initial_state))
    as (shown & Hout & _ & _ & _ & Hinvalid & _).
  rewrite Hout. f_equal. apply Hinvalid.
  - intros pattern. exists (RangeError "Invalid time value"). reflexivity.
  - reflexivity.
  - reflexivity.
Defined.

(** ** Properties of the refresh timer *)

Section Timer.

Variable reply : world → completion (list notification).

Implicit Types (w : world) (h : nat) (p d : N).

Lemma fetch_calls_logged w s :
  length (List.filter
            (λ c, match fst c with GetAdminNotifications => true | _ => false end)
            (requests w ++ [(GetAdminNotifications, s)]))
  = S (fetch_calls w).
Proof.
  unfold fetch_calls. rewrite List.filter_app, length_app; simpl. lia.
Qed.

(** A fetch started without being awaited makes one collaborator call and
    leaves clock and timers alone. *)
Lemma call_fetch_frame w :
  let w' := fst (fetchNotifications (backend reply) w) in
  now w' = now w ∧ timers w' = timers w ∧
  next_handle w' = next_handle w ∧ fetch_calls w' = S (fetch_calls w).
Proof.
  unfold backend; simpl.
  rewrite fetchNotifications_answers; simpl.
  destruct (reply _); simpl; unfold fetch_calls at 1; simpl;
    rewrite fetch_calls_logged; repeat split.
Qed.

Lemma tick_idle h p d w :
  armed h p d w → (now w + 1)%N ≠ d →
  armed h p d (tick (backend reply) w) ∧
  now (tick (backend reply) w) = (now w + 1)%N ∧
  fetch_calls (tick (backend reply) w) = fetch_calls w.
Proof.
  unfold armed, tick, due_callbacks. intros -> Hne; simpl.
  destruct (N.eqb_spec d (now w + 1)) as [E|_]; [congruence|].
  simpl. repeat split.
Qed.

Lemma tick_fire h p w :
  armed h p (now w + 1)%N w →
  armed h p (now w + 1 + p)%N (tick (backend reply) w) ∧
  now (tick (backend reply) w) = (now w + 1)%N ∧
  fetch_calls (tick (backend reply) w) = S (fetch_calls w).
Proof.
  unfold armed, tick, due_callbacks. intros ->; simpl.
  rewrite N.eqb_refl; simpl.
  match goal with
  | |- context [fetchNotifications (backend reply) ?w0] =>
      destruct (call_fetch_frame w0) as (Hn & Ht & _ & Hc)
  end.
  rewrite Ht, Hn, Hc. repeat split.
Qed.

(** Time passing short of the next firing fires nothing. *)
Lemma advance_idle h p d w n :
  armed h p d w → (now w + n < d)%N →
  armed h p d (advance (backend reply) n w) ∧
  now (advance (backend reply) n w) = (now w + n)%N ∧
  fetch_calls (advance (backend reply) n w) = fetch_calls w.
Proof.
  intros Ha. unfold advance.
  induction n as [|n IH] using N.peano_ind; intros Hlt.
  - simpl. rewrite N.add_0_r. repeat split; assumption.
  - rewrite N.iter_succ.
    destruct IH as (Ha' & Hn' & Hc'); [lia|].
    destruct (tick_idle h p d _ Ha') as (Ha2 & Hn2 & Hc2); [lia|].
    rewrite Hn2, Hc2, Hn', Hc'. repeat split; [assumption|lia].
Qed.

(** Time passing up to the next firing fires the timer once. *)
Lemma advance_to_due h p d w n :
  armed h p d w → (now w + N.succ n)%N = d →
  armed h p (d + p)%N (advance (backend reply) (N.succ n) w) ∧
  now (advance (backend reply) (N.succ n) w) = d ∧
  fetch_calls (advance (backend reply) (N.succ n) w) = S (fetch_calls w).
Proof.
  intros Ha Hd.
  destruct (advance_idle h p d w n Ha) as (Ha' & Hn' & Hc'); [lia|].
  unfold advance in *. rewrite N.iter_succ.
  assert (Hdue : d = (now (N.iter n (tick (backend reply)) w) + 1)%N)
    by (rewrite Hn'; lia).
  rewrite Hdue in Ha'.
  destruct (tick_fire h p _ Ha') as (Ha2 & Hn2 & Hc2).
  rewrite Hn2, Hc2, Hc'. rewrite <- Hdue in Ha2 |- *.
  repeat split; assumption.
Qed.

(** One full period fires the timer once and arms it for the next. *)
Lemma advance_period h p w :
  (0 < p)%N → armed h p (now w + p)%N w →
  armed h p (now w + p + p)%N (advance (backend reply) p w) ∧
  now (advance (backend reply) p w) = (now w + p)%N ∧
  fetch_calls (advance (backend reply) p w) = S (fetch_calls w).
Proof.
  intros Hp Ha.
  assert (Hsucc : N.succ (N.pred p) = p) by lia.
  pose proof (advance_to_due h p _ w (N.pred p) Ha) as Hfire.
  rewrite Hsucc in Hfire. apply Hfire. reflexivity.
Qed.

(** [k] full periods fire the timer [k] times. *)
Lemma advance_periods h p w k :
  (0 < p)%N → armed h p (now w + p)%N w →
  armed h p (now w + k * p + p)%N (advance (backend reply) (k * p) w) ∧
  now (advance (backend reply) (k * p) w) = (now w + k * p)%N ∧
  fetch_calls (advance (backend reply) (k * p) w) = (fetch_calls w + N.to_nat k)%nat.
Proof.
  intros Hp Ha.
  induction k as [|k IH] using N.peano_ind.
  - simpl. rewrite N.add_0_r, Nat.add_0_r. repeat split; assumption.
  - destruct IH as (Ha' & Hn' & Hc').
    replace (N.succ k * p)%N with (p + k * p)%N by lia.
    unfold advance in *. rewrite N.iter_add.
    rewrite <- Hn' in Ha'.
    destruct (advance_period h p _ Hp Ha') as (Ha2 & Hn2 & Hc2).
    unfold advance in Ha2, Hn2, Hc2.
    rewrite Hn2, Hc2, Hc', Hn'. rewrite Hn' in Ha2.
    replace (now w + (p + k * p) + p)%N with (now w + k * p + p + p)%N by lia.
    repeat split; [assumption|lia|lia].
Qed.

(** However much time passes, the one timer stays the one timer. *)
Lemma advance_armed h p d w n :
  armed h p d w → ∃ d', armed h p d' (advance (backend reply) n w).
Proof.
  intros Ha. unfold advance.
  induction n as [|n IH] using N.peano_ind.
  - exists d. exact Ha.
  - rewrite N.iter_succ. destruct IH as [d' Ha'].
    destruct (N.eq_dec (now (N.iter n (tick (backend reply)) w) + 1) d') as [E|Hne].
    + subst d'. destruct (tick_fire h p _ Ha') as (Ha2 & _).
      eexists; exact Ha2.
    + destruct (tick_idle h p d' _ Ha' Hne) as (Ha2 & _).
      eexists; exact Ha2.
Qed.

(** With no timer, time passes and nothing is fetched. *)
Lemma advance_no_timer w n :
  timers w = [] →
  timers (advance (backend reply) n w) = [] ∧
  fetch_calls (advance (backend reply) n w) = fetch_calls w.
Proof.
  intros Ht. unfold advance.
  induction n as [|n IH] using N.peano_ind.
  - split; [exact Ht|reflexivity].
  - rewrite N.iter_succ. destruct IH as (Ht' & Hc').
    unfold tick at 1 3, due_callbacks. rewrite Ht'; simpl.
    split; [reflexivity|exact Hc'].
Qed.

(** [clearInterval] of the one timer leaves none. *)
Lemma cleanup_disarms h p d w :
  armed h p d w →
  timers (fst (useEffect_cleanup h w)) = [] ∧
  fetch_calls (fst (useEffect_cleanup h w)) = fetch_calls w.
Proof.
  unfold armed, useEffect_cleanup, clearInterval. intros ->; simpl.
  rewrite Nat.eqb_refl; simpl. split; reflexivity.
Qed.

(** What mounting does on a page without timers. *)
Lemma mount_arms w :
  timers w = [] →
  ∃ w1, useEffect_mount (backend reply) w = (w1, Normal (next_handle w)) ∧
        armed (next_handle w) 300000 (now w1 + 300000)%N w1 ∧
        now w1 = now w ∧
        fetch_calls w1 = S (fetch_calls w).
Proof.
  intros Ht. unfold useEffect_mount, bind, ret, setInterval.
  destruct (call_fetch_frame w) as (Hn & Htm & Hh & Hc).
  unfold call_async; simpl in *.
  eexists; split; [rewrite Hh; reflexivity|].
  unfold armed; simpl. rewrite Htm, Ht, Hn. repeat split.
  unfold fetch_calls in *; simpl. exact Hc.
Qed.

End Timer.

(** C9.  With time counted in milliseconds: mounting on a page without
    timers fetches once and arms one interval timer whose period is
    300000 ms.  From then on, three periods of time trigger exactly three
    further fetches (and [k] periods exactly [k]); and once the cleanup of
    the effect has run, at whatever moment, no amount of time triggers
    another fetch. *)
Theorem auto_refresh_fires_once_per_interval
    (reply : world → completion (list notification)) (w : world) :
  timers w = [] →
  ∃ interval mounted,
    useEffect_mount (backend reply) w = (mounted, Normal interval) ∧
    armed interval 300000 (now mounted + 300000)%N mounted ∧
    fetch_calls (advance (backend reply) (3 * 300000) mounted)
    = (fetch_calls mounted + 3)%nat ∧
    (∀ k, fetch_calls (advance (backend reply) (k * 300000) mounted)
          = (fetch_calls mounted + N.to_nat k)%nat) ∧
    (∀ d d',
       let stopped :=
         fst (useEffect_cleanup interval (advance (backend reply) d mounted)) in
       timers stopped = [] ∧
       fetch_calls (advance (backend reply) d' stopped)
       = fetch_calls (advance (backend reply) d mounted)).
Proof.
  intros Ht.
  destruct (mount_arms reply w Ht) as (w1 & Hmount & Harmed & _ & _).
  exists (next_handle w), w1.
  assert (Hperiods : ∀ k,
             fetch_calls (advance (backend reply) (k * 300000) w1)
             = (fetch_calls w1 + N.to_nat k)%nat).
  { intros k.
    destruct (advance_periods reply (next_handle w) 300000 w1 k)
      as (_ & _ & Hc); [lia|exact Harmed|exact Hc]. }
  split; [exact Hmount|]. split; [exact Harmed|].
  split; [exact (Hperiods 3%N)|]. split; [exact Hperiods|].
  intros d d' stopped. subst stopped.
  destruct (advance_armed reply _ _ _ w1 d Harmed) as [due' Ha].
  destruct (cleanup_disarms _ _ _ _ Ha) as (Hnone & Hcalls).
  split; [exact Hnone|].
  destruct (advance_no_timer reply _ d' Hnone) as (_ & Hc).
  rewrite Hc. exact Hcalls.
Qed.

Lemma auto_refresh_fires_once_per_interval_witness :
  ∃ interval mounted,
    useEffect_mount (backend (λ _, Normal [])) (fresh_world initial_state)
    = (mounted, Normal interval) ∧
    fetch_calls (advance (backend (λ _, Normal [])) 900000 mounted)
    = (fetch_calls mounted + 3)%nat.
Proof.
  destruct (auto_refresh_fires_once_per_interval (λ _, Normal [])
              (fresh_world initial_state))
    as (interval & mounted & Hmount & _ & Hthree & _).
  - reflexivity.
  - exists interval, mounted. split; [exact Hmount|exact Hthree].
Defined.

(** ** Further properties of the store *)

(** X1.  Whatever the collaborators do while they are awaited, and however
    they settle, [fetchNotifications] and [handleMarkAsRead] resolve, the
    mount effect returns its timer handle, and a fetch leaves the loading
    flag off. *)
Theorem handlers_never_reject (g : M (list notification))
    (mark : string → M unit) (nid : string) (w : world) :
  outcome (fetchNotifications g) w = Normal tt ∧
  loading (state_after (fetchNotifications g) w) = false ∧
  outcome (handleMarkAsRead mark nid) w = Normal tt ∧
  ∃ interval, outcome (useEffect_mount g) w = Normal interval.
Proof.
  unfold outcome, state_after, useEffect_mount, call_async, setInterval,
    fetchNotifications, handleMarkAsRead, try_catch_finally, try_catch, bind,
    ret, setLoading, setNotifications, setUnreadCount, setError,
    console_error, with_ui; simpl.
  split; [|split; [|split]].
  - destruct (g _) as [w1 [R|e]]; reflexivity.
  - destruct (g _) as [w1 [R|e]]; reflexivity.
  - destruct (mark nid w) as [w1 [[]|e]]; reflexivity.
  - eexists; reflexivity.
Qed.

(** X2.  The response of a fetch overwrites whatever happened while it was
    pending: if other handlers ([during]: later fetches, acknowledgements)
    run between the call and its settling, then once it resolves with [R]
    the list is [R] and the count is that of [R]; and once it rejects, list
    and count are the ones those handlers left.  Either way the loading
    flag is off. *)
Theorem fetch_response_overwrites (during : M unit)
    (R : list notification) (e : exn) (w : world) :
  let pending := log_request GetAdminNotifications
                   (fst (setLoading (Value true) w)) in
  let meanwhile := ui (fst (during pending)) in
  let resolved :=
    state_after (fetchNotifications
                   (interleaved GetAdminNotifications during (Normal R))) w in
  let rejected :=
    state_after (fetchNotifications
                   (interleaved GetAdminNotifications during (Throw e))) w in
  resolved = {| notifications := R; loading := false;
                error := error meanwhile;
                unreadCount := Z.of_nat (count_unread R) |} ∧
  rejected = {| notifications := notifications meanwhile; loading := false;
                error := "Failed to load notifications";
                unreadCount := unreadCount meanwhile |}.
Proof.
  unfold state_after, fetchNotifications, interleaved, try_catch_finally,
    try_catch, bind; simpl.
  rewrite filter_unread_length. split; reflexivity.
Qed.

Section Acknowledged.

Implicit Types (l : list notification) (nid : string).

Lemma marked_cons nid n l :
  marked nid (n :: l)
  = (if String.eqb (id n) nid then spread_read_true n else n) :: marked nid l.
Proof. reflexivity. Qed.

Lemma marked_lookup nid l i :
  marked nid l !! i
  = (λ n, if String.eqb (id n) nid then spread_read_true n else n) <$> l !! i.
Proof. unfold marked. apply list_lookup_fmap. Qed.

Lemma marked_ids nid l : map id (marked nid l) = map id l.
Proof.
  induction l as [|n l IH]; [reflexivity|].
  rewrite ?marked_cons; simpl. rewrite IH.
  destruct (String.eqb (id n) nid); reflexivity.
Qed.

Lemma marked_absent nid l : nid ∉ map id l → marked nid l = l.
Proof.
  intros Hnot. apply mark_read_no_unread_match. intros n Hn Hid.
  exfalso. apply Hnot. rewrite <- Hid.
  apply list_elem_of_In, in_map, list_elem_of_In, Hn.
Qed.

Lemma count_unread_marked_le nid l :
  (count_unread (marked nid l) ≤ count_unread l)%nat.
Proof.
  induction l as [|n l IH]; [reflexivity|].
  rewrite ?marked_cons; simpl.
  destruct (String.eqb (id n) nid); simpl; destruct (read n); simpl; lia.
Qed.

(** With distinct ids an acknowledgement removes at most one unread
    entry. *)
Lemma count_unread_marked_ge nid l :
  NoDup (map id l) →
  (count_unread l ≤ S (count_unread (marked nid l)))%nat.
Proof.
  induction l as [|n l IH]; simpl; [lia|].
  intros Hnd. apply NoDup_cons in Hnd as [Hfresh Hnd].
  rewrite ?marked_cons.
  destruct (String.eqb_spec (id n) nid) as [E|_].
  - rewrite marked_absent by (rewrite <- E; exact Hfresh).
    simpl. destruct (read n); simpl; lia.
  - simpl. specialize (IH Hnd). destruct (read n); simpl; lia.
Qed.

(** With distinct ids, acknowledging an unread entry removes exactly
    one. *)
Lemma count_unread_marked_unread nid l n :
  NoDup (map id l) → n ∈ l → read n = false → id n = nid →
  count_unread l = S (count_unread (marked nid l)).
Proof.
  induction l as [|m l IH]; simpl; intros Hnd Hin Hunread Hid.
  - apply elem_of_nil in Hin. contradiction.
  - apply NoDup_cons in Hnd as [Hfresh Hnd]. rewrite ?marked_cons.
    apply elem_of_cons in Hin as [<-|Hin].
    + rewrite Hid, String.eqb_refl.
      rewrite marked_absent by (rewrite <- Hid; exact Hfresh).
      simpl. rewrite Hunread. reflexivity.
    + destruct (String.eqb_spec (id m) nid) as [E|_].
      * exfalso. apply Hfresh. rewrite E, <- Hid.
        apply list_elem_of_In, in_map, list_elem_of_In, Hin.
      * simpl. rewrite (IH Hnd Hin Hunread Hid). lia.
Qed.

Lemma state_after_acknowledge nid w :
  state_after (handleMarkAsRead mark_ok nid) w
  = {| notifications := marked nid (notifications (ui w));
       loading := loading (ui w);
       error := error (ui w);
       unreadCount := Z.max 0 (unreadCount (ui w) - 1) |}.
Proof. reflexivity. Qed.

End Acknowledged.

(** X3.  An accepted acknowledgement, of any id, keeps every entry in its
    place with its id, type, creation time and other fields; it never turns
    a read entry unread, leaves entries with another id entirely alone,
    and leaves every entry with that id read.  The number of unread entries
    does not grow. *)
Theorem acknowledge_keeps_entries (nid : string) (w : world) :
  let l := notifications (ui w) in
  let l' := notifications (state_after (handleMarkAsRead mark_ok nid) w) in
  length l' = length l ∧
  (∀ i n, l !! i = Some n →
     ∃ n', l' !! i = Some n' ∧
           id n' = id n ∧ type n' = type n ∧
           createdAt n' = createdAt n ∧ fields n' = fields n ∧
           (read n = true → read n' = true) ∧
           (id n ≠ nid → n' = n) ∧
           (id n = nid → read n' = true)) ∧
  (count_unread l' ≤ count_unread l)%nat.
Proof.
  intros l l'. subst l l'. rewrite state_after_acknowledge; simpl.
  split; [unfold marked; apply length_map|].
  split; [|apply count_unread_marked_le].
  intros i n Hi. rewrite marked_lookup, Hi; simpl.
  eexists; split; [reflexivity|].
  destruct (String.eqb_spec (id n) nid) as [E|Hne]; simpl.
  - repeat split; try reflexivity. intros Hne. contradiction.
  - repeat split; try (intros; assumption). intros E. contradiction.
Qed.

(** X4.  When the count pill equals the number of unread entries (as after
    a fetch) and no id occurs twice, an accepted acknowledgement of an
    unread entry keeps it equal: acknowledging unread entries one after
    another keeps the pill exact. *)
Theorem acknowledge_unread_keeps_count_exact (w : world) (n : notification) :
  NoDup (map id (notifications (ui w))) →
  unreadCount (ui w) = Z.of_nat (count_unread (notifications (ui w))) →
  n ∈ notifications (ui w) →
  read n = false →
  let s' := state_after (handleMarkAsRead mark_ok (id n)) w in
  unreadCount s' = Z.of_nat (count_unread (notifications s')) ∧
  unreadCount s' = unreadCount (ui w) - 1 ∧
  NoDup (map id (notifications s')).
Proof.
  intros Hnd Hexact Hin Hunread s'. subst s'.
  rewrite state_after_acknowledge; simpl.
  rewrite marked_ids, Hexact.
  rewrite (count_unread_marked_unread (id n) _ n Hnd Hin Hunread eq_refl).
  repeat split; [lia|lia|exact Hnd].
Qed.

Lemma acknowledge_unread_keeps_count_exact_witness :
  unreadCount (state_after (handleMarkAsRead mark_ok "2")
                 (fresh_world two_unread)) = 1.
Proof.
  destruct (acknowledge_unread_keeps_count_exact (fresh_world two_unread)
              (sample "2" false)) as (_ & Hminus & _).
  - simpl. apply NoDup_cons. split.
    + intros Hin. apply elem_of_cons in Hin as [Heq|Hin]; [discriminate Heq|].
      apply elem_of_nil in Hin. exact Hin.
    + apply NoDup_cons. split; [apply not_elem_of_nil|apply NoDup_nil_2].
  - reflexivity.
  - simpl. right; left.
  - reflexivity.
  - exact Hminus.
Defined.

Section Events.

Implicit Types (w : world) (es : list event).

Lemma run_cons e es w : run (e :: es) w = run es (step e w).
Proof. reflexivity. Qed.

Lemma step_refresh_resolved R w :
  ui (step (Refresh (Normal R)) w)
  = {| notifications := R; loading := false; error := error (ui w);
       unreadCount := Z.of_nat (count_unread R) |}.
Proof.
  unfold step, settles. rewrite fetchNotifications_answers; simpl.
  rewrite filter_unread_length. reflexivity.
Qed.

Lemma step_refresh_rejected e w :
  ui (step (Refresh (Throw e)) w)
  = {| notifications := notifications (ui w); loading := false;
       error := "Failed to load notifications";
       unreadCount := unreadCount (ui w) |}.
Proof.
  unfold step, settles. rewrite fetchNotifications_answers. reflexivity.
Qed.

Lemma step_acknowledge_resolved nid w :
  ui (step (Acknowledge nid (Normal tt)) w)
  = {| notifications := marked nid (notifications (ui w));
       loading := loading (ui w); error := error (ui w);
       unreadCount := Z.max 0 (unreadCount (ui w) - 1) |}.
Proof. reflexivity. Qed.

Lemma step_acknowledge_rejected nid e w :
  ui (step (Acknowledge nid (Throw e)) w) = ui w.
Proof. reflexivity. Qed.

Lemma step_consistent e w :
  well_keyed e → consistent (ui w) → consistent (ui (step e w)).
Proof.
  intros Hkeys (Hcount & Hidle & Hnd).
  destruct e as [[R|e]|nid [[]|e]].
  - rewrite step_refresh_resolved. repeat split; simpl; [lia|lia|exact Hkeys].
  - rewrite step_refresh_rejected. repeat split; simpl; [lia|lia|exact Hnd].
  - rewrite step_acknowledge_resolved. unfold consistent; simpl.
    rewrite marked_ids.
    pose proof (count_unread_marked_ge nid _ Hnd).
    repeat split; [lia|lia|exact Hidle|exact Hnd].
  - rewrite step_acknowledge_rejected. repeat split; assumption || lia.
Qed.

Lemma step_error e w :
  error (ui (step e w))
  = match e with
    | Refresh (Throw _) => "Failed to load notifications"
    | _ => error (ui w)
    end.
Proof.
  destruct e as [[R|e]|nid [[]|e]].
  - rewrite step_refresh_resolved. reflexivity.
  - rewrite step_refresh_rejected. reflexivity.
  - rewrite step_acknowledge_resolved. reflexivity.
  - rewrite step_acknowledge_rejected. reflexivity.
Qed.

End Events.

(** X5.  Through any sequence of fetches and acknowledgements, each settled
    before the next and however the backend answers, as long as it never
    lists an id twice: the count pill is never negative and never above the
    number of unread entries in the list, the loading flag is off between
    events, and no id occurs twice in the list. *)
Theorem events_keep_consistent (es : list event) (w : world) :
  Forall well_keyed es →
  consistent (ui w) →
  consistent (ui (run es w)).
Proof.
  revert w. induction es as [|e es IH]; intros w Hkeys Hw; [exact Hw|].
  apply Forall_cons in Hkeys as [Hkey Hkeys].
  rewrite run_cons. apply IH; [exact Hkeys|].
  apply step_consistent; assumption.
Qed.

Lemma events_keep_consistent_witness :
  consistent
    (ui (run [Refresh (Normal [sample "1" false; sample "2" false]);
              Acknowledge "1" (Normal tt);
              Acknowledge "1" (Normal tt);
              Refresh (Throw (Rejected "offline"))]
             (fresh_world initial_state))).
Proof.
  apply events_keep_consistent.
  - repeat (apply Forall_cons; split); try exact I; [|apply Forall_nil; exact I].
    simpl. apply NoDup_cons. split.
    + intros Hin. apply elem_of_cons in Hin as [Heq|Hin]; [discriminate Heq|].
      apply elem_of_nil in Hin. exact Hin.
    + apply NoDup_cons. split; [apply not_elem_of_nil|apply NoDup_nil_2].
  - unfold consistent; simpl. repeat split; [lia|lia|apply NoDup_nil_2].
Defined.

(** X6.  The error message is set by a rejected fetch and by nothing else,
    and nothing ever clears it: after any sequence of events it is
    ["Failed to load notifications"] if some fetch of the sequence was
    rejected, and otherwise what it was before. *)
Theorem error_message_is_sticky (es : list event) (w : world) :
  error (ui (run es w))
  = if fetch_rejected es
    then "Failed to load notifications"
    else error (ui w).
Proof.
  revert w. induction es as [|e es IH]; intros w; [reflexivity|].
  rewrite run_cons, IH, step_error.
  destruct e as [[R|e]|nid r]; simpl; try reflexivity.
  destruct (fetch_rejected es); reflexivity.
Qed.

(** ** Further properties of the content resolver *)

(** X7.  For a Google sign-up notification the message names the user by
    [userName] when that is a non-empty string, whatever [userEmail] is; by
    [userEmail] when [userName] is missing, null or empty; and by the word
    "undefined" when both fields are missing.  The link to the pending
    users is there in each case. *)
Theorem signup_message_prefers_name `{Host} (n : notification) :
  type n = VStr "new_google_user" →
  let expected who :=
    Normal {| title := "New Google Sign-up";
              message :=
                who ++ " has signed up with Google and is pending approval.";
              link := "/admin/pending-users";
              linkText := "View Pending Users" |} in
  (∀ name, fields n !! "userName" = Some (VStr name) → name ≠ "" →
           getNotificationContent n = expected name) ∧
  (∀ email, truthy (get n "userName") = false →
            fields n !! "userEmail" = Some (VStr email) →
            getNotificationContent n = expected email) ∧
  (fields n !! "userName" = None → fields n !! "userEmail" = None →
   getNotificationContent n = expected "undefined").
Proof.
  intros Htype expected. subst expected.
  unfold getNotificationContent, js_or, get. rewrite Htype; simpl.
  split; [|split].
  - intros name -> Hname; simpl.
    destruct (String.eqb_spec name "") as [E|_]; [contradiction|reflexivity].
  - intros email Hfalsy ->; simpl in *. rewrite Hfalsy. reflexivity.
  - intros -> ->. reflexivity.
Qed.

Lemma signup_message_prefers_name_witness :
  @getNotificationContent example_host nameless
  = Normal {| title := "New Google Sign-up";
              message :=
                "a@x.com has signed up with Google and is pending approval.";
              link := "/admin/pending-users";
              linkText := "View Pending Users" |}.
Proof.
  destruct (@signup_message_prefers_name example_host nameless eq_refl)
    as (_ & Hemail & _).
  apply (Hemail "a@x.com"); reflexivity.
Defined.

(** X8.  [getNotificationContent] throws only when the value chosen for the
    name is an object whose conversion to a string throws, and then it
    throws that very exception: for documents made of plain data it always
    returns. *)
Theorem content_throws_only_on_object `{Host} (n : notification) (e : exn) :
  getNotificationContent n = Throw e →
  type n = VStr "new_google_user" ∧
  ∃ toDate asDate,
    js_or (get n "userName") (get n "userEmail")
    = VObj toDate asDate (Throw e).
Proof.
  unfold getNotificationContent.
  destruct (strict_eq_str (type n) "new_google_user") eqn:Htag;
    [|discriminate].
  destruct (type n) as [| | | |tag| |]; try discriminate Htag.
  apply String.eqb_eq in Htag as ->.
  destruct (js_or _ _) as [| |b|[|neg|z]|s|d|td ad [s|e']]; simpl;
    try discriminate.
  intros [= ->]. split; [reflexivity|]. exists td, ad. reflexivity.
Qed.

Lemma content_throws_only_on_object_witness :
  let broken :=
    {| id := "3"; type := VStr "new_google_user"; read := false;
       createdAt := VNull;
       fields := {[ "userName" :=
                      VObj None (Normal None) (Throw (TypeError "no string")) ]} |} in
  ∃ toDate asDate,
    js_or (get broken "userName") (get broken "userEmail")
    = VObj toDate asDate (Throw (TypeError "no string")).
Proof.
  intros broken.
  destruct (@content_throws_only_on_object example_host broken
              (TypeError "no string") eq_refl) as (_ & Hobject).
  exact Hobject.
Defined.

(** ** Further properties of the timestamp formatter *)

Section FormatterFrame.
Context `{Host}.

(** Formatting changes nothing but the console, and what it returns does
    not depend on the world it runs in. *)
Lemma formatNotificationTime_runs (timestamp : value) (w : world) :
  ∃ shown w',
    formatNotificationTime timestamp w = (w', Normal shown) ∧
    only_logs w w' ∧
    ∀ w2, outcome (formatNotificationTime timestamp) w2 = Normal shown.
Proof.
  unfold outcome.
  destruct (truthy timestamp) eqn:Ht.
  - destruct (date_of timestamp) as [date|e] eqn:Hd;
      [destruct (format date "MMM d, yyyy h:mm a") as [f|e] eqn:Hf|].
    + exists f, w. split; [|split].
      * rewrite formatNotificationTime_truthy, Hd, Hf by exact Ht. reflexivity.
      * repeat split. exists []. symmetry. apply app_nil_r.
      * intros w2.
        rewrite formatNotificationTime_truthy, Hd, Hf by exact Ht. reflexivity.
    + eexists "Invalid date", _. split; [|split].
      * rewrite formatNotificationTime_truthy, Hd, Hf by exact Ht. reflexivity.
      * repeat split. eexists. reflexivity.
      * intros w2.
        rewrite formatNotificationTime_truthy, Hd, Hf by exact Ht. reflexivity.
    + eexists "Invalid date", _. split; [|split].
      * rewrite formatNotificationTime_truthy, Hd by exact Ht. reflexivity.
      * repeat split. eexists. reflexivity.
      * intros w2.
        rewrite formatNotificationTime_truthy, Hd by exact Ht. reflexivity.
  - exists "", w. split; [|split].
    + apply formatNotificationTime_falsy, Ht.
    + repeat split. exists []. symmetry. apply app_nil_r.
    + intros w2. rewrite formatNotificationTime_falsy by exact Ht. reflexivity.
Qed.

End FormatterFrame.

(** X9.  How each shape of timestamp is turned into a date.  A non-empty
    string goes through the date parser.  An object with a [toDate]
    property is asked for its date, and neither [new Date] nor its string
    form is consulted; if the call throws the text is ["Invalid date"].  A
    [Date] and any other object go through [new Date].  In each case the
    text is what [format] makes of that date, or ["Invalid date"] when
    [format] throws. *)
Theorem timestamp_shapes `{Host} (w : world) :
  let shown_of (c : completion string) :=
    match c with Normal text => text | Throw _ => "Invalid date" end in
  let text_of timestamp := outcome (formatNotificationTime timestamp) w in
  (∀ s, s ≠ "" →
        text_of (VStr s)
        = Normal (shown_of (format (VDate (Date_parse s)) "MMM d, yyyy h:mm a"))) ∧
  (∀ date asDate asString,
        text_of (VObj (Some (Normal date)) asDate asString)
        = Normal (shown_of (format date "MMM d, yyyy h:mm a"))) ∧
  (∀ e asDate asString,
        text_of (VObj (Some (Throw e)) asDate asString)
        = Normal "Invalid date") ∧
  (∀ d asString,
        text_of (VDate d) = text_of (VObj None (Normal d) asString) ∧
        text_of (VDate d)
        = Normal (shown_of (format (VDate d) "MMM d, yyyy h:mm a"))) ∧
  (∀ e asString,
        text_of (VObj None (Throw e) asString) = Normal "Invalid date").
Proof.
  intros shown_of text_of. subst shown_of text_of. unfold outcome.
  assert (Hstr : ∀ s, s ≠ "" → truthy (VStr s) = true).
  { intros s Hs; simpl.
    destruct (String.eqb_spec s "") as [E|_]; [contradiction|reflexivity]. }
  repeat split; intros;
    rewrite !formatNotificationTime_truthy by (auto || reflexivity);
    unfold date_of; simpl; try destruct (format _ _); reflexivity.
Qed.

Lemma timestamp_shapes_witness :
  outcome (@formatNotificationTime example_host (VStr "soon"))
          (fresh_world initial_state)
  = Normal "Invalid date" ∧
  outcome (@formatNotificationTime example_host
             (VObj (Some (Normal (VDate (Some 86400000))))
                   (Throw (TypeError "unused")) (Normal "unused")))
          (fresh_world initial_state)
  = Normal "86400000".
Proof.
  destruct (@timestamp_shapes example_host (fresh_world initial_state))
    as (Hstring & Hobject & _).
  split.
  - apply (Hstring "soon"). discriminate.
  - apply (Hobject (VDate (Some 86400000))).
Defined.



(** ** Properties of the rendered dropdown *)

Section Render.
Context `{Host}.

Implicit Types (w : world) (n : notification) (l : list notification).

Lemma only_logs_refl w : only_logs w w.
Proof. repeat split. exists []. symmetry. apply app_nil_r. Qed.

Lemma only_logs_trans w1 w2 w3 :
  only_logs w1 w2 → only_logs w2 w3 → only_logs w1 w3.
Proof.
  intros (Hu & Hr & Hn & Ht & Hh & l1 & Hc) (Hu' & Hr' & Hn' & Ht' & Hh' & l2 & Hc').
  repeat split; try congruence.
  exists (l1 ++ l2). rewrite Hc', Hc. symmetry. apply app_assoc.
Qed.

Lemma render_item_run n w :
  render_item n w =
    match getNotificationContent n with
    | Normal c =>
        match formatNotificationTime (createdAt n) w with
        | (w1, Normal time) =>
            (w1, Normal {| key := id n; marks := id n;
                           highlighted := negb (read n);
                           item_title := title c;
                           new_pill := negb (read n);
                           item_message := message c;
                           time_text := time;
                           action := if negb (String.eqb (link c) "")
                                     then Some (link c, linkText c)
                                     else None |})
        | (w1, Throw e) => (w1, Throw e)
        end
    | Throw e => (w, Throw e)
    end.
Proof.
  unfold render_item, bind, eval, ret.
  destruct (getNotificationContent n) as [c|e]; [|reflexivity].
  destruct (formatNotificationTime (createdAt n) w) as [w1 [time|e]];
    reflexivity.
Qed.

(** The link button is there exactly for the recognized type. *)
Lemma content_action n c :
  getNotificationContent n = Normal c →
  (if negb (String.eqb (link c) "") then Some (link c, linkText c) else None)
  = if strict_eq_str (type n) "new_google_user"
    then Some ("/admin/pending-users", "View Pending Users")
    else None.
Proof.
  unfold getNotificationContent.
  destruct (strict_eq_str (type n) "new_google_user").
  - destruct (to_string _); [|discriminate]. intros [= <-]. reflexivity.
  - intros [= <-]. reflexivity.
Qed.

Lemma map_M_cons {A B} (f : A → M B) a (l : list A) w :
  map_M f (a :: l) w =
    match f a w with
    | (w1, Normal b) =>
        match map_M f l w1 with
        | (w2, Normal bs) => (w2, Normal (b :: bs))
        | (w2, Throw e) => (w2, Throw e)
        end
    | (w1, Throw e) => (w1, Throw e)
    end.
Proof.
  simpl. unfold bind, ret.
  destruct (f a w) as [w1 [b|e]]; [|reflexivity].
  destruct (map_M f l w1) as [w2 [bs|e]]; reflexivity.
Qed.

(** When every callback returns, the entries follow the list one by one. *)
Lemma map_M_render_item l : ∀ w w' entries,
  map_M render_item l w = (w', Normal entries) →
  only_logs w w' ∧
  Forall2 (λ n it,
             ∃ c, getNotificationContent n = Normal c ∧
                  key it = id n ∧ marks it = id n ∧
                  highlighted it = negb (read n) ∧
                  new_pill it = negb (read n) ∧
                  item_title it = title c ∧
                  item_message it = message c ∧
                  (∀ w0, outcome (formatNotificationTime (createdAt n)) w0
                         = Normal (time_text it)) ∧
                  action it
                  = if strict_eq_str (type n) "new_google_user"
                    then Some ("/admin/pending-users", "View Pending Users")
                    else None)
          l entries.
Proof.
  induction l as [|n l IH]; intros w w' entries Hrun.
  - injection Hrun as <- <-. split; [apply only_logs_refl|constructor].
  - rewrite map_M_cons, render_item_run in Hrun.
    destruct (getNotificationContent n) as [c|e] eqn:Hc; [|discriminate].
    destruct (formatNotificationTime_runs (createdAt n) w)
      as (shown & w1 & Hfmt & Hlog & Hany).
    rewrite Hfmt in Hrun.
    destruct (map_M render_item l w1) as [w2 [bs|e]] eqn:Hrest;
      [|discriminate].
    injection Hrun as <- <-.
    destruct (IH _ _ _ Hrest) as (Hlog' & Hall).
    split; [eapply only_logs_trans; eassumption|].
    constructor; [|exact Hall].
    exists c; simpl. rewrite (content_action n c Hc).
    split; [exact Hc|]. do 6 (split; [reflexivity|]).
    split; [exact Hany|reflexivity].
Qed.

(** The callbacks stop at the first notification whose content throws. *)
Lemma map_M_render_item_throws l : ∀ w,
  (∃ e, outcome (map_M render_item l) w = Throw e) ↔
  Exists (λ n, ∃ e, getNotificationContent n = Throw e) l.
Proof.
  unfold outcome.
  induction l as [|n l IH]; intros w.
  - simpl. split; [intros [e He]; discriminate|intros Hex; inversion Hex].
  - rewrite map_M_cons, render_item_run.
    destruct (getNotificationContent n) as [c|e] eqn:Hc.
    + destruct (formatNotificationTime_runs (createdAt n) w)
        as (shown & w1 & Hfmt & _ & _).
      rewrite Hfmt. specialize (IH w1).
      destruct (map_M render_item l w1) as [w2 [bs|e]]; simpl in *.
      * split; [intros [e He]; discriminate|].
        intros Hex. apply Exists_cons in Hex as [[e He]|Hex].
        -- rewrite He in Hc. discriminate.
        -- apply IH in Hex as [e He]. discriminate.
      * split; [|intros _; exists e; reflexivity].
        intros _. apply Exists_cons_tl, IH. exists e. reflexivity.
    + simpl. split; [|intros _; exists e; reflexivity].
      intros _. apply Exists_cons_hd. exists e. exact Hc.
Qed.

Lemma render_run (s : state) w :
  render s w =
    match map_M render_item (notifications s) w with
    | (w', Normal entries) =>
        (w', Normal {| badge := if shows_badge s
                                then Some (unreadCount s) else None;
                       spinner := shows_spinner s;
                       error_text := if shows_error s
                                     then Some (error s) else None;
                       empty_text := shows_empty s;
                       items := entries;
                       refresh_button :=
                         Nat.ltb 0 (length (notifications s)) |})
    | (w', Throw e) => (w', Throw e)
    end.
Proof.
  unfold render, bind, ret.
  destruct (map_M render_item (notifications s) w) as [w' [entries|e]];
    reflexivity.
Qed.

Lemma new_pills_count l (entries : list item) :
  Forall2 (λ n it, new_pill it = negb (read n)) l entries →
  length (List.filter new_pill entries) = count_unread l.
Proof.
  induction 1 as [|n it l entries Hpill _ IH]; [reflexivity|].
  simpl. rewrite Hpill. destruct (read n); simpl; rewrite IH; reflexivity.
Qed.

End Render.

(** X11.  When rendering returns, the menu has one entry per notification,
    in the order of the list.  The entry carries the notification's id as
    its key and as the id its click acknowledges, is highlighted and
    labelled New exactly when the notification is unread, shows the
    resolved title and message and the formatted creation time, and has the
    link button to the pending users exactly when the type is the
    recognized one.  Rendering changes nothing but the console. *)
Theorem render_shows_every_notification `{Host}
    (s : state) (w w' : world) (v : view) :
  render s w = (w', Normal v) →
  only_logs w w' ∧
  length (items v) = length (notifications s) ∧
  ∀ i n, notifications s !! i = Some n →
    ∃ it c,
      items v !! i = Some it ∧
      getNotificationContent n = Normal c ∧
      key it = id n ∧ marks it = id n ∧
      highlighted it = negb (read n) ∧
      new_pill it = negb (read n) ∧
      item_title it = title c ∧
      item_message it = message c ∧
      outcome (formatNotificationTime (createdAt n)) w
      = Normal (time_text it) ∧
      action it = if strict_eq_str (type n) "new_google_user"
                  then Some ("/admin/pending-users", "View Pending Users")
                  else None.
Proof.
  rewrite render_run.
  destruct (map_M render_item (notifications s) w) as [w1 [entries|e]] eqn:Hrun;
    [|discriminate].
  intros [= <- <-]; simpl.
  destruct (map_M_render_item _ _ _ _ Hrun) as (Hlog & Hall).
  split; [exact Hlog|].
  split; [symmetry; eapply Forall2_length; exact Hall|].
  intros i n Hi.
  destruct (Forall2_lookup_l _ _ _ _ _ Hall Hi)
    as (it & Hit & c & Hc & Hk & Hm & Hh & Hp & Ht & Hmsg & Htime & Hact).
  exists it, c. repeat split; try assumption. apply Htime.
Qed.

Lemma render_shows_every_notification_witness :
  ∃ w' v,
    @render example_host one_read_one_unread (fresh_world one_read_one_unread)
    = (w', Normal v) ∧
    length (items v) = 2%nat.
Proof.
  destruct (@render example_host one_read_one_unread
              (fresh_world one_read_one_unread)) as [w' [v|e]] eqn:Hrun.
  - exists w', v. split; [reflexivity|].
    destruct (@render_shows_every_notification example_host _ _ _ _ Hrun)
      as (_ & Hlen & _).
    exact Hlen.
  - vm_compute in Hrun. discriminate Hrun.
Defined.

(** X12.  Rendering throws exactly when the content of some notification of
    the list cannot be resolved; formatting a creation time never makes it
    throw. *)
Theorem render_fails_iff_content_fails `{Host} (s : state) (w : world) :
  (∃ e, outcome (render s) w = Throw e) ↔
  Exists (λ n, ∃ e, getNotificationContent n = Throw e) (notifications s).
Proof.
  rewrite <- (map_M_render_item_throws (notifications s) w).
  unfold outcome. rewrite render_run.
  destruct (map_M render_item (notifications s) w) as [w1 [entries|e]];
    simpl; split; intros [e' He']; try discriminate;
    exists e'; injection He' as <-; reflexivity.
Qed.

(** X13.  What is on display.  The "No notifications" line comes only with
    an empty menu, no spinner, no error line and no Refresh button; without
    it the dropdown shows the spinner, an error line or at least one entry.
    The Refresh button is there exactly when there are entries.  The error
    line is the non-empty error message, and the count pill is the unread
    count when that is positive. *)
Theorem dropdown_is_never_blank `{Host} (s : state) (w w' : world) (v : view) :
  render s w = (w', Normal v) →
  (empty_text v = true →
   items v = [] ∧ spinner v = false ∧ error_text v = None ∧
   refresh_button v = false) ∧
  (empty_text v = false →
   spinner v = true ∨ error_text v = Some (error s) ∨ items v ≠ []) ∧
  (refresh_button v = true ↔ items v ≠ []) ∧
  (∀ m, error_text v = Some m → m = error s ∧ m ≠ "") ∧
  (∀ k, badge v = Some k ↔ k = unreadCount s ∧ 0 < k).
Proof.
  rewrite render_run.
  destruct (map_M render_item (notifications s) w) as [w1 [entries|e]] eqn:Hrun;
    [|discriminate].
  intros [= <- <-]; simpl.
  destruct (map_M_render_item _ _ _ _ Hrun) as (_ & Hall).
  apply Forall2_length in Hall.
  unfold shows_empty, shows_error, shows_spinner, shows_badge.
  destruct (String.eqb_spec (error s) "") as [Herr|Herr]; simpl.
  all: destruct (loading s); simpl.
  all: destruct entries as [|it entries];
    destruct (notifications s) as [|n l]; try discriminate Hall; simpl.
  all: repeat split; try congruence; try discriminate; auto.
  all: try (intros [= <-]; assumption).
  all: try (destruct (Z.ltb_spec 0 (unreadCount s)); intros; 
            repeat match goal with
                   | Hk : Some _ = Some _ |- _ => injection Hk as <-
                   | Hk : _ ∧ _ |- _ => destruct Hk as [-> ?]
                   end; try discriminate; try reflexivity; try lia).
Qed.

Lemma dropdown_is_never_blank_witness :
  ∃ w' v,
    @render example_host initial_state (fresh_world initial_state)
    = (w', Normal v) ∧
    items v = [] ∧ refresh_button v = false.
Proof.
  destruct (@render example_host initial_state (fresh_world initial_state))
    as [w' [v|e]] eqn:Hrun.
  - exists w', v. split; [reflexivity|].
    destruct (@dropdown_is_never_blank example_host _ _ _ _ Hrun)
      as (Hempty & _).
    destruct Hempty as (Hitems & _ & _ & Hbutton).
    + injection Hrun as _ <-. reflexivity.
    + split; assumption.
  - vm_compute in Hrun. discriminate Hrun.
Defined.

(** X14.  Right after a fetch that resolved with [R], the dropdown shows no
    spinner, labels exactly as many entries New as [R] has unread ones, and
    the pill on the bell carries that same number, or is hidden when there
    is none. *)
Theorem pill_counts_new_entries_after_fetch `{Host}
    (R : list notification) (w w1 w2 : world) (v : view) :
  render (state_after (fetchNotifications (fetch_ok R)) w) w1
  = (w2, Normal v) →
  length (List.filter new_pill (items v)) = count_unread R ∧
  badge v = (if Nat.eqb (count_unread R) 0
             then None
             else Some (Z.of_nat (count_unread R))) ∧
  spinner v = false.
Proof.
  unfold state_after, fetch_ok, resolves, settles.
  rewrite fetchNotifications_answers; simpl.
  rewrite filter_unread_length, render_run; simpl.
  destruct (map_M render_item R w1) as [w' [entries|e]] eqn:Hrun;
    [|discriminate].
  intros [= <- <-]; simpl.
  destruct (map_M_render_item _ _ _ _ Hrun) as (_ & Hall).
  split; [|split; [|reflexivity]].
  - apply new_pills_count.
    eapply Forall2_impl; [exact Hall|].
    intros n it (c & _ & _ & _ & _ & Hpill & _). exact Hpill.
  - unfold shows_badge; simpl.
    destruct (count_unread R); [reflexivity|].
    destruct (Z.ltb_spec 0 (Z.of_nat (S n))); [reflexivity|lia].
Qed.

Lemma pill_counts_new_entries_after_fetch_witness :
  ∃ w2 v,
    @render example_host
      (state_after (fetchNotifications (fetch_ok [nameless; untyped]))
                   (fresh_world initial_state))
      (fresh_world initial_state)
    = (w2, Normal v) ∧
    badge v = Some 2.
Proof.
  destruct (@render example_host
              (state_after (fetchNotifications (fetch_ok [nameless; untyped]))
                           (fresh_world initial_state))
              (fresh_world initial_state)) as [w2 [v|e]] eqn:Hrun.
  - exists w2, v. split; [reflexivity|].
    destruct (@pill_counts_new_entries_after_fetch example_host _ _ _ _ _ Hrun)
      as (_ & Hbadge & _).
    exact Hbadge.
  - vm_compute in Hrun. discriminate Hrun.
Defined.

(** ** Further properties of the refresh timer *)

Section TimerQueue.

Variable reply : world → completion (list notification).

Implicit Types (w : world) (h : nat) (d : N).

Lemma reschedule_handle t (e : nat * (callback * timer)) :
  fst (reschedule t e) = fst e.
Proof.
  destruct e as [h [cb tm]]; simpl. destruct (due tm =? t)%N; reflexivity.
Qed.

Lemma run_callbacks_timers (cbs : list callback) : ∀ w,
  timers (foldl (λ w' cb, fst (run_callback (backend reply) cb w')) w cbs)
  = timers w.
Proof.
  induction cbs as [|[] cbs IH]; intros w; [reflexivity|].
  simpl. rewrite IH.
  destruct (call_fetch_frame reply w) as (_ & Ht & _). exact Ht.
Qed.

Lemma tick_handles w : handles (tick (backend reply) w) = handles w.
Proof.
  unfold handles, tick. rewrite run_callbacks_timers; simpl.
  rewrite map_map. apply map_ext. intros e. apply reschedule_handle.
Qed.

Lemma advance_handles d w : handles (advance (backend reply) d w) = handles w.
Proof.
  unfold advance. induction d as [|d IH] using N.peano_ind; [reflexivity|].
  rewrite N.iter_succ, tick_handles. exact IH.
Qed.

Lemma mount_handles w :
  useEffect_mount (backend reply) w
  = (fst (useEffect_mount (backend reply) w), Normal (next_handle w)) ∧
  handles (fst (useEffect_mount (backend reply) w))
  = handles w ++ [next_handle w].
Proof.
  unfold useEffect_mount, bind, ret, setInterval, handles.
  destruct (call_fetch_frame reply w) as (_ & Ht & Hh & _).
  unfold call_async; simpl. rewrite Ht, Hh, map_app. split; reflexivity.
Qed.

Lemma cleanup_handles h w :
  handles (fst (useEffect_cleanup h w))
  = List.filter (λ h', negb (Nat.eqb h' h)) (handles w).
Proof.
  unfold handles, useEffect_cleanup, clearInterval; simpl.
  induction (timers w) as [|e ts IH]; [reflexivity|].
  simpl. destruct (Nat.eqb (fst e) h); simpl; rewrite IH; reflexivity.
Qed.

Lemma filter_other_handles h (hs : list nat) :
  (∀ h', h' ∈ hs → (h' < h)%nat) →
  List.filter (λ h', negb (Nat.eqb h' h)) hs = hs.
Proof.
  induction hs as [|h0 hs IH]; intros Hlt; [reflexivity|].
  simpl. destruct (Nat.eqb_spec h0 h) as [E|_].
  - assert (Hin : h0 ∈ h0 :: hs) by left. specialize (Hlt h0 Hin). lia.
  - simpl. rewrite IH; [reflexivity|].
    intros h' Hin. apply Hlt. right. exact Hin.
Qed.

End TimerQueue.

(** X15.  After mounting on a page without timers, the number of fetches
    the timer has triggered once [d] milliseconds have passed is [d]
    divided by 300000, rounded down: none during the first 299999 ms, one
    more with every full five minutes. *)
Theorem refreshes_by_elapsed_time
    (reply : world → completion (list notification)) (w : world) (d : N) :
  timers w = [] →
  let mounted := fst (useEffect_mount (backend reply) w) in
  fetch_calls (advance (backend reply) d mounted)
  = (fetch_calls mounted + N.to_nat (d / 300000))%nat.
Proof.
  intros Ht mounted. subst mounted.
  destruct (mount_arms reply w Ht) as (w1 & Hmount & Harmed & _ & _).
  rewrite Hmount; simpl.
  destruct (advance_periods reply (next_handle w) 300000 w1 (d / 300000))
    as (Ha & Hn & Hc); [lia|exact Harmed|].
  assert (Hsplit : d = (d mod 300000 + d / 300000 * 300000)%N).
  { rewrite (N.div_mod d 300000) at 1 by lia. lia. }
  rewrite Hsplit at 1. unfold advance in *. rewrite N.iter_add.
  destruct (advance_idle reply (next_handle w) 300000 _ _ (d mod 300000) Ha)
    as (_ & _ & Hc').
  - rewrite Hn. pose proof (N.mod_lt d 300000). lia.
  - unfold advance in Hc'. rewrite Hc', Hc. reflexivity.
Qed.

Lemma refreshes_by_elapsed_time_witness :
  fetch_calls (advance (backend (λ _, Normal [])) 299999
                 (fst (useEffect_mount (backend (λ _, Normal []))
                         (fresh_world initial_state))))
  = (fetch_calls (fst (useEffect_mount (backend (λ _, Normal []))
                         (fresh_world initial_state))) + 0)%nat.
Proof.
  apply (refreshes_by_elapsed_time (λ _, Normal [])
           (fresh_world initial_state) 299999).
  reflexivity.
Defined.

(** X16.  On a page whose timer handles are all below the next free one,
    mounting takes that next handle for its interval, and the cleanup run
    with it, at whatever later moment, removes that timer and no other: the
    page is left with exactly the timers it had before the mount. *)
Theorem cleanup_removes_only_own_timer
    (reply : world → completion (list notification)) (w : world) (d : N) :
  (∀ h, h ∈ handles w → (h < next_handle w)%nat) →
  let mounted := fst (useEffect_mount (backend reply) w) in
  outcome (useEffect_mount (backend reply)) w = Normal (next_handle w) ∧
  handles (advance (backend reply) d mounted)
  = handles w ++ [next_handle w] ∧
  handles (fst (useEffect_cleanup (next_handle w)
                  (advance (backend reply) d mounted)))
  = handles w.
Proof.
  intros Hfresh mounted. subst mounted.
  destruct (mount_handles reply w) as (Hmount & Hh).
  split; [unfold outcome; rewrite Hmount; reflexivity|].
  rewrite cleanup_handles, !advance_handles, Hh.
  split; [reflexivity|].
  rewrite List.filter_app; simpl. rewrite Nat.eqb_refl; simpl.
  rewrite app_nil_r. apply filter_other_handles. exact Hfresh.
Qed.

Lemma cleanup_removes_only_own_timer_witness :
  handles (fst (useEffect_cleanup 1
                  (advance (backend (λ _, Normal [])) 70000
                     (fst (useEffect_mount (backend (λ _, Normal []))
                             busy_page)))))
  = [0%nat].
Proof.
  destruct (cleanup_removes_only_own_timer (λ _, Normal []) busy_page 70000)
    as (_ & _ & Hleft).
  - intros h Hin. simpl in Hin.
    apply elem_of_cons in Hin as [->|Hin]; [simpl; lia|].
    apply elem_of_nil in Hin. contradiction.
  - exact Hleft.
Defined.

(** ** An acknowledgement racing a fetch *)

(** X17.  The updates of an acknowledgement apply to the state at the
    moment its request resolves, not to the state in which the entry was
    clicked: when a fetch resolves with [R] while the acknowledgement of
    [nid] is pending, the acknowledgement then marks the entries of [R]
    that carry [nid], and lowers the count computed from [R] by one,
    floored at zero. *)
Theorem acknowledge_applies_to_latest_list
    (R : list notification) (nid : string) (w : world) :
  state_after
    (handleMarkAsRead
       (λ i, interleaved (MarkNotificationAsRead i)
               (call_async (fetchNotifications (fetch_ok R))) (Normal tt))
       nid) w
  = {| notifications := marked nid R;
       loading := false;
       error := error (ui w);
       unreadCount := Z.max 0 (Z.of_nat (count_unread R) - 1) |}.
Proof.
  unfold state_after, handleMarkAsRead, interleaved, call_async, try_catch,
    bind, fetch_ok, resolves, settles.
  rewrite fetchNotifications_answers; simpl.
  rewrite filter_unread_length. reflexivity.
Qed.
